(** * Adaptive spatial search controller: tiles, ledger, frontier, checkpoints

    A shallow embedding of the adaptive places crawl
    ([adaptive_search/core/search.py], [core/places.py],
    [spatial/tiles.py], [utils/checkpoint.py]) and the properties its
    specification states about it.

    Conventions of the embedding.
    - Python floats are idealised as exact rationals [Q]; equality of
      coordinates is [Qeq] ([==]).  The one function that needs
      [math.sqrt] and [math.cos] is stated over the reals [R].
    - Python lists are Rocq lists in the same order: [append] adds at the
      end and [pop()] removes the last element.
    - Python sets of strings are [gset string]; the file system is a
      finite map from path names to file contents.
    - Exceptions are values of [PyExc]; a call that may raise returns a
      [result].
    - Logging and the process-wide metrics singleton do not influence any
      controller state and are left out. *)

From Stdlib Require Import Ascii String QArith Qround Qabs Lqa Reals Qreals.
From Stdlib Require Lra.
From stdpp Require Import gmap strings list fin_maps.

#[local] Set Warnings "-clear-no-such-hyp".
#[local] Open Scope Z_scope.

(* ===================================================================== *)
(** ** Tiles ([spatial/tiles.py]) *)
(* ===================================================================== *)

(** A tile is the tuple [(lat, lng, size)]. *)
Definition Tile : Type := Q * Q * Q.

Definition tile_lat (t : Tile) : Q := fst (fst t).
Definition tile_lng (t : Tile) : Q := snd (fst t).
Definition tile_size (t : Tile) : Q := snd t.

(** Component-wise rational equality of tiles. *)
Definition tile_eqv (a b : Tile) : Prop :=
  (tile_lat a == tile_lat b)%Q /\ (tile_lng a == tile_lng b)%Q /\
  (tile_size a == tile_size b)%Q.

Definition create_tile (lat lng size : Q) : Tile := (lat, lng, size).

(** [subdivide_tile]: the four quadrants, in the order SW, SE, NW, NE. *)
Definition subdivide_tile (tile : Tile) : list Tile :=
  let '(lat, lng, size) := tile in
  let new_size := (size / 2)%Q in
  let half_size := (new_size / 2)%Q in
  [ ((lat - half_size)%Q, (lng - half_size)%Q, new_size);
    ((lat - half_size)%Q, (lng + half_size)%Q, new_size);
    ((lat + half_size)%Q, (lng - half_size)%Q, new_size);
    ((lat + half_size)%Q, (lng + half_size)%Q, new_size) ].

(* ===================================================================== *)
(** ** Tile keys ([run_deep_dive], the f-string at the top of the loop) *)
(* ===================================================================== *)

(** Rounding to the nearest integer, ties to the even neighbour: the
    rounding of Python's fixed-point float formatting. *)
Definition round_half_even (x : Q) : Z :=
  let fl := Qfloor x in
  match (x - inject_Z fl ?= 1 # 2)%Q with
  | Lt => fl
  | Gt => fl + 1
  | Eq => if Z.even fl then fl else fl + 1
  end.

Definition digit_char (d : Z) : ascii := ascii_of_nat (48 + Z.to_nat d).

(** Decimal digits of a non-negative integer, most significant first. *)
Fixpoint decimal_go (fuel : nat) (n : Z) (acc : string) : string :=
  match fuel with
  | O => acc
  | S fuel' =>
      let acc' := String (digit_char (n mod 10)) acc in
      if n / 10 =? 0 then acc' else decimal_go fuel' (n / 10) acc'
  end.

Definition decimal (n : Z) : string :=
  decimal_go (S (Z.to_nat (Z.log2 n))) n "".

(** The six digits after the decimal point, zero padded. *)
Definition frac6 (m : Z) : string :=
  String (digit_char (m / 100000 mod 10))
  (String (digit_char (m / 10000 mod 10))
  (String (digit_char (m / 1000 mod 10))
  (String (digit_char (m / 100 mod 10))
  (String (digit_char (m / 10 mod 10))
  (String (digit_char (m mod 10)) ""))))).

(** The value of a field in units of 1e-6, as [.6f] prints it: the sign
    and the rounded magnitude. *)
Definition micro_sign (x : Q) : bool := bool_decide (Qnum x < 0).
Definition micro_units (x : Q) : Z := round_half_even (Qabs x * 1000000).

(** [f"{x:.6f}"] *)
Definition format_6f (x : Q) : string :=
  let n := micro_units x in
  (if micro_sign x then "-" else "") +:+
  decimal (n / 1000000) +:+ "." +:+ frac6 (n mod 1000000).

(** [tile_key = f"{lat:.6f},{lng:.6f},{size:.6f}"] *)
Definition tile_key (t : Tile) : string :=
  let '(lat, lng, size) := t in
  format_6f lat +:+ "," +:+ format_6f lng +:+ "," +:+ format_6f size.

(* ===================================================================== *)
(** ** Exceptions and the process environment *)
(* ===================================================================== *)

Inductive PyExc : Type :=
| TypeError          (* wrong number of arguments in a call *)
| ValueError         (* tuple unpacking with the wrong arity *)
| RequestException.  (* [requests.get] or [raise_for_status] failed *)

Inductive result (A : Type) : Type :=
| Ok (a : A)
| Raise (e : PyExc).
Arguments Ok {A} a.
Arguments Raise {A} e.

Definition is_ok {A} (r : result A) : bool :=
  match r with Ok _ => true | Raise _ => false end.

(** A place record as the provider returns it: the identifier and the
    rest of the payload, which the controller never inspects. *)
Record Place : Type := mkPlace { place_id : string; payload : string }.

#[global] Instance Place_eq_dec : EqDecision Place.
Proof. solve_decision. Defined.

(** One HTTP exchange with the provider: the request raised, or it
    returned a JSON document with [status], [results] and
    [next_page_token]. *)
Inductive HttpOutcome : Type :=
| HttpFailure
| HttpJson (status : string) (results : list Place)
           (next_page_token : option string).

(** One call of the query client, as the controller issued it. *)
Record Query : Type := mkQuery
  { q_lat : Q; q_lng : Q; q_radius : R; q_type : string }.

(** A pickled checkpoint dictionary. *)
Record Snapshot : Type := mkSnapshot
  { snap_timestamp : Q;
    snap_city : string;
    snap_initial_tiles : list Tile;
    snap_high_density_stack : list Tile;
    snap_processed : gset string;
    snap_seen_place_ids : gset string;
    snap_deep_count : Z;
    snap_version : string }.

(** What a file under a checkpoint name holds: a pickled dictionary, or
    bytes that [pickle.load] rejects. *)
Inductive FileContent : Type :=
| Pickled (s : Snapshot)
| Unreadable.

(** Everything outside the controller object.
    - [http_script]: the outcomes of the HTTP requests still to come, in
      the order they will be made; when it is exhausted a request fails.
    - [queries]: the calls of [get_nearby_places] made so far.
    - [csv_files]: the rows of each result file.
    - [ckpt_files]: the files in the checkpoint name space.
    - [ckpt_dir_ok]: whether files under [data/checkpoints/] can be written.
    - [now]: the reading of [time.time()].
    - [ts]: the date string [checkpoint.py] computed when it was imported. *)
Record World : Type := mkWorld
  { http_script : list HttpOutcome;
    queries : list Query;
    csv_files : gmap string (list Place);
    ckpt_files : gmap string FileContent;
    ckpt_dir_ok : bool;
    now : Q;
    ts : string }.

Definition with_http (h : list HttpOutcome) (w : World) : World :=
  mkWorld h (queries w) (csv_files w) (ckpt_files w) (ckpt_dir_ok w) (now w) (ts w).
Definition with_queries (q : list Query) (w : World) : World :=
  mkWorld (http_script w) q (csv_files w) (ckpt_files w) (ckpt_dir_ok w) (now w) (ts w).
Definition with_csv (c : gmap string (list Place)) (w : World) : World :=
  mkWorld (http_script w) (queries w) c (ckpt_files w) (ckpt_dir_ok w) (now w) (ts w).
Definition with_ckpt (c : gmap string FileContent) (w : World) : World :=
  mkWorld (http_script w) (queries w) (csv_files w) c (ckpt_dir_ok w) (now w) (ts w).

(** [str.lower()] on the ASCII letters. *)
Definition ascii_lower (c : ascii) : ascii :=
  let n := nat_of_ascii c in
  if (65 <=? n)%nat && (n <=? 90)%nat then ascii_of_nat (n + 32) else c.

Fixpoint lower (s : string) : string :=
  match s with
  | EmptyString => EmptyString
  | String c s' => String (ascii_lower c) (lower s')
  end.

(* ===================================================================== *)
(** ** The controller object ([core/search.py], class [AdaptiveSearch]) *)
(* ===================================================================== *)

Record APIMetrics : Type := mkMetrics
  { total_requests : Z; results_returned : Z; unique_results : Z }.

Record AdaptiveSearch : Type := mkSearch
  { chunk_size : Z;
    initial_radius : Q;
    initial_step : Q;
    min_step : Q;
    high_density_threshold : Z;
    city : string;
    location_type : string;
    api_metrics : APIMetrics;
    processed : gset string;
    seen_place_ids : gset string;
    new_places : Z;
    deep_count : Z;
    max_deep_dives : Z;
    initial_tiles : list Tile;
    high_density_stack : list Tile;
    chunk_buffer : list Place }.

(** [__init__]: the state of a freshly constructed controller. *)
Definition init (city : string) (initial_radius initial_step min_step : Q)
    (high_density_threshold chunk_size : Z) (location_type : string)
    : AdaptiveSearch :=
  {| chunk_size := chunk_size;
     initial_radius := initial_radius;
     initial_step := initial_step;
     min_step := min_step;
     high_density_threshold := high_density_threshold;
     city := city;
     location_type := location_type;
     api_metrics := mkMetrics 0 0 0;
     processed := ∅;
     seen_place_ids := ∅;
     new_places := 0;
     deep_count := 0;
     max_deep_dives := 1000;
     initial_tiles := [];
     high_density_stack := [];
     chunk_buffer := [] |}.

Definition with_api_metrics (m : APIMetrics) (s : AdaptiveSearch) :=
  mkSearch (chunk_size s) (initial_radius s) (initial_step s) (min_step s)
    (high_density_threshold s) (city s) (location_type s) m (processed s)
    (seen_place_ids s) (new_places s) (deep_count s) (max_deep_dives s)
    (initial_tiles s) (high_density_stack s) (chunk_buffer s).
Definition with_processed (p : gset string) (s : AdaptiveSearch) :=
  mkSearch (chunk_size s) (initial_radius s) (initial_step s) (min_step s)
    (high_density_threshold s) (city s) (location_type s) (api_metrics s) p
    (seen_place_ids s) (new_places s) (deep_count s) (max_deep_dives s)
    (initial_tiles s) (high_density_stack s) (chunk_buffer s).
Definition with_seen_place_ids (p : gset string) (s : AdaptiveSearch) :=
  mkSearch (chunk_size s) (initial_radius s) (initial_step s) (min_step s)
    (high_density_threshold s) (city s) (location_type s) (api_metrics s)
    (processed s) p (new_places s) (deep_count s) (max_deep_dives s)
    (initial_tiles s) (high_density_stack s) (chunk_buffer s).
Definition with_new_places (n : Z) (s : AdaptiveSearch) :=
  mkSearch (chunk_size s) (initial_radius s) (initial_step s) (min_step s)
    (high_density_threshold s) (city s) (location_type s) (api_metrics s)
    (processed s) (seen_place_ids s) n (deep_count s) (max_deep_dives s)
    (initial_tiles s) (high_density_stack s) (chunk_buffer s).
Definition with_deep_count (n : Z) (s : AdaptiveSearch) :=
  mkSearch (chunk_size s) (initial_radius s) (initial_step s) (min_step s)
    (high_density_threshold s) (city s) (location_type s) (api_metrics s)
    (processed s) (seen_place_ids s) (new_places s) n (max_deep_dives s)
    (initial_tiles s) (high_density_stack s) (chunk_buffer s).
Definition with_high_density_stack (l : list Tile) (s : AdaptiveSearch) :=
  mkSearch (chunk_size s) (initial_radius s) (initial_step s) (min_step s)
    (high_density_threshold s) (city s) (location_type s) (api_metrics s)
    (processed s) (seen_place_ids s) (new_places s) (deep_count s)
    (max_deep_dives s) (initial_tiles s) l (chunk_buffer s).
Definition with_chunk_buffer (b : list Place) (s : AdaptiveSearch) :=
  mkSearch (chunk_size s) (initial_radius s) (initial_step s) (min_step s)
    (high_density_threshold s) (city s) (location_type s) (api_metrics s)
    (processed s) (seen_place_ids s) (new_places s) (deep_count s)
    (max_deep_dives s) (initial_tiles s) (high_density_stack s) b.


Definition bump_unique_results (m : APIMetrics) : APIMetrics :=
  mkMetrics (total_requests m) (results_returned m) (unique_results m + 1).

(* ===================================================================== *)
(** ** Checkpoints and the result file ([utils/checkpoint.py]) *)
(* ===================================================================== *)

(** The path [save_comprehensive_checkpoint] writes. *)
Definition save_path (w : World) (city : string) : string :=
  "data/checkpoints/checkpoint_" +:+ lower city +:+ "_" +:+ ts w +:+ ".ckpt".

(** The path [load_search_state] reads. *)
Definition load_path (city date_tag : string) : string :=
  "checkpoint_" +:+ lower city +:+ date_tag +:+ ".ckpt".

(** [save_comprehensive_checkpoint]: pickle into [<path>.tmp], then
    [os.replace] it over [<path>]; when the write raises, the exception is
    swallowed and the temporary file is removed. *)
Definition save_comprehensive_checkpoint (w : World) (city : string)
    (state_data : Snapshot) : World :=
  let checkpoint_filename := save_path w city in
  let tmp_filename := checkpoint_filename +:+ ".tmp" in
  if ckpt_dir_ok w then
    with_ckpt (<[checkpoint_filename := Pickled state_data]>
                 (delete tmp_filename (ckpt_files w))) w
  else
    with_ckpt (delete tmp_filename (ckpt_files w)) w.

Definition checkpoint_version : string := "1.0.1".

(** [save_search_state] *)
Definition save_search_state (w : World) (city : string)
    (initial_tiles high_density_stack : list Tile)
    (processed seen_place_ids : gset string) (deep_count : Z) : World :=
  let state_data :=
    {| snap_timestamp := now w;
       snap_city := city;
       snap_initial_tiles := initial_tiles;
       snap_high_density_stack := high_density_stack;
       snap_processed := processed;
       snap_seen_place_ids := seen_place_ids;
       snap_deep_count := deep_count;
       snap_version := checkpoint_version |} in
  save_comprehensive_checkpoint w city state_data.

(** [load_search_state]: [None] when the file is absent or cannot be
    unpickled, the stored dictionary otherwise. *)
Definition load_search_state (w : World) (city date_tag : string)
    : option Snapshot :=
  match ckpt_files w !! load_path city date_tag with
  | None => None
  | Some (Pickled state_data) => Some state_data
  | Some Unreadable => None
  end.

(** [flush_chunk]: append the buffer to the city's result file and clear
    it; nothing happens on an empty buffer.  Returns the buffer after the
    call (the list object is shared with the controller). *)
Definition flush_chunk (city : string) (chunk_buffer : list Place) (w : World)
    : list Place * World :=
  match chunk_buffer with
  | [] => ([], w)
  | _ :: _ =>
      let file := lower city +:+ "_restaurants.csv" in
      let rows := default [] (csv_files w !! file) in
      ([], with_csv (<[file := rows ++ chunk_buffer]> (csv_files w)) w)
  end.

(* ===================================================================== *)
(** ** Helper methods of the controller *)
(* ===================================================================== *)

(** The saturation test both phases apply to a query result. *)
Definition saturated (pages count : Z) : bool :=
  (pages =? 3) && (count =? 60).

(** [check_tile_density] *)
Definition check_tile_density (s : AdaptiveSearch) (pages : Z)
    (lat lng size : Q) (count : Z) : AdaptiveSearch :=
  if saturated pages count
  then with_high_density_stack (high_density_stack s ++ [(lat, lng, size)]) s
  else s.

(** One iteration of the loop of [add_unique_row_to_final_list]. *)
Definition add_unique_row (s : AdaptiveSearch) (place : Place) : AdaptiveSearch :=
  let pid := place_id place in
  if decide (pid ∈ seen_place_ids s) then s
  else
    with_api_metrics (bump_unique_results (api_metrics s))
      (with_new_places (new_places s + 1)
        (with_seen_place_ids ({[pid]} ∪ seen_place_ids s)
          (with_chunk_buffer (chunk_buffer s ++ [place]) s))).

(** [add_unique_row_to_final_list] *)
Definition add_unique_row_to_final_list (s : AdaptiveSearch)
    (places : list Place) : AdaptiveSearch :=
  foldl add_unique_row s places.

(** The guard of [check_and_save_chunk_size]. *)
Definition chunk_flush_due (s : AdaptiveSearch) : bool :=
  (0 <? new_places s) && (chunk_size s <=? Z.of_nat (length (chunk_buffer s))).

(** [check_and_save_chunk_size] *)
Definition check_and_save_chunk_size (s : AdaptiveSearch) (w : World)
    : AdaptiveSearch * World :=
  if chunk_flush_due s then
    let '(buf, w') := flush_chunk (city s) (chunk_buffer s) w in
    (with_chunk_buffer buf s, w')
  else (s, w).

(* ===================================================================== *)
(** ** The query client ([core/places.py]) *)
(* ===================================================================== *)

(** The provider's page cap ([MAX_PAGES], default of the configuration). *)
Definition MAX_PAGES : nat := 3.

(** What [get_nearby_places] hands back: the normal [return] is a triple,
    the [return] of the exception handler is a pair. *)
Inductive QueryReturn : Type :=
| Tuple2 (places : list Place) (count : Z)
| Tuple3 (places : list Place) (count : Z) (pages : Z).

(** [places, count, pages = <value>] *)
Definition unpack3 (v : QueryReturn) : result (list Place * Z * Z) :=
  match v with
  | Tuple3 places count pages => Ok (places, count, pages)
  | Tuple2 _ _ => Raise ValueError
  end.

(** Python truth value of [data.get("next_page_token")]. *)
Definition truthy (token : option string) : bool :=
  match token with
  | Some (String _ _) => true
  | _ => false
  end.

(** The body of [for _ in range(MAX_PAGES)]: [n] iterations remain. *)
Fixpoint fetch_pages (n : nat) (script : list HttpOutcome)
    (places : list Place) (page_count : Z)
    : result (list Place * Z) * list HttpOutcome :=
  match n with
  | O => (Ok (places, page_count), script)
  | S n' =>
      match script with
      | [] => (Raise RequestException, [])
      | HttpFailure :: rest => (Raise RequestException, rest)
      | HttpJson status results token :: rest =>
          if negb (String.eqb status "OK") then
            if String.eqb status "OVER_QUERY_LIMIT"
            then fetch_pages n' rest places page_count        (* continue *)
            else (Ok (places, page_count), rest)               (* break *)
          else
            let places' := places ++ results in
            let page_count' := page_count + 1 in
            if truthy token
            then fetch_pages n' rest places' page_count'
            else (Ok (places', page_count'), rest)             (* break *)
      end
  end.

(** [get_nearby_places] *)
Definition get_nearby_places (w : World) (lat lng : Q) (radius : R)
    (type_ : string) : QueryReturn * World :=
  let w0 := with_queries (queries w ++ [mkQuery lat lng radius type_]) w in
  match fetch_pages MAX_PAGES (http_script w0) [] 0 with
  | (Ok (places, page_count), rest) =>
      (Tuple3 places (Z.of_nat (length places)) page_count, with_http rest w0)
  | (Raise _, rest) =>
      (Tuple2 [] 0, with_http rest w0)
  end.

(* ===================================================================== *)
(** ** The initial scan ([AdaptiveSearch.crawl_city]) *)
(* ===================================================================== *)

(** The outcome of a statement sequence: the exception that left it, if
    any, and the controller and environment as they are at that point. *)
Definition Outcome : Type := option PyExc * AdaptiveSearch * World.

(** The body of the [for] loop over the initial tiles. *)
Definition crawl_tile (s : AdaptiveSearch) (w : World) (tile : Tile) : Outcome :=
  let '(lat, lng, size) := tile in
  let '(ret, w1) :=
    get_nearby_places w lat lng (Q2R (initial_radius s)) (location_type s) in
  match unpack3 ret with
  | Raise e => (Some e, s, w1)
  | Ok (places, count, pages) =>
      let s1 := add_unique_row_to_final_list s places in
      let '(s2, w2) := check_and_save_chunk_size s1 w1 in
      let s3 := check_tile_density s2 pages lat lng size count in
      (None, s3, w2)
  end.



(* ===================================================================== *)
(** ** The search radius ([spatial/tiles.py]) *)
(* ===================================================================== *)

(** [math.radians] *)
Definition radians (x : R) : R := (x * (PI / 180))%R.

(** [calculate_search_radius(lat, lng, size)] *)
Definition calculate_search_radius (lat lng size : Q) : R :=
  let meters_per_degree_lat := 111111%R in
  let meters_per_degree_lng := (111111 * cos (radians (Q2R lat)))%R in
  let meters_per_degree_avg :=
    ((meters_per_degree_lat + meters_per_degree_lng) / 2)%R in
  let radius_degrees := (Q2R size / 2 * sqrt 2)%R in
  (radius_degrees * meters_per_degree_avg)%R.

(** A call of [calculate_search_radius] with positional arguments: the
    function has three required parameters and no defaults. *)
Definition call_calculate_search_radius (args : list Q) : result R :=
  match args with
  | [lat; lng; size] => Ok (calculate_search_radius lat lng size)
  | _ => Raise TypeError
  end.

(** The call in [run_deep_dive]: [calculate_search_radius(lat, size)]. *)
Definition adjusted_radius_call (lat size : Q) : result R :=
  call_calculate_search_radius [lat; size].

(* ===================================================================== *)
(** ** The deep dive ([AdaptiveSearch.run_deep_dive]) *)
(* ===================================================================== *)

(** [list.pop()]: the last element and the list without it. *)
Definition pop (l : list Tile) : option (Tile * list Tile) :=
  match rev l with
  | [] => None
  | t :: r => Some (t, rev r)
  end.

(** One iteration of the inline deduplication loop of the deep dive. *)
Definition deep_add_unique (s : AdaptiveSearch) (p : Place) : AdaptiveSearch :=
  let pid := place_id p in
  if decide (pid ∈ seen_place_ids s) then s
  else
    with_api_metrics (bump_unique_results (api_metrics s))
      (with_chunk_buffer (chunk_buffer s ++ [p])
        (with_seen_place_ids ({[pid]} ∪ seen_place_ids s) s)).

(** The flush guard of the deep dive. *)
Definition deep_flush_due (s : AdaptiveSearch) : bool :=
  chunk_size s <=? Z.of_nat (length (chunk_buffer s)).

(** The subdivision guard of the deep dive. *)
Definition subdivide_due (s : AdaptiveSearch) (size : Q) (pages count : Z) : bool :=
  negb (Qle_bool size (min_step s)) && (pages =? 3) && (count =? 60).

(** The loop condition. *)
Definition deep_dive_continues (s : AdaptiveSearch) : bool :=
  negb (length (high_density_stack s) =? 0)%nat
  && (deep_count s <? max_deep_dives s).

(** What one evaluation of the loop condition and body leads to. *)
Inductive Step : Type :=
| Continue (s : AdaptiveSearch) (w : World)   (* back to the loop test *)
| Finished (s : AdaptiveSearch) (w : World)   (* the loop test failed *)
| Aborted (e : PyExc) (s : AdaptiveSearch) (w : World).
                                              (* an exception left the loop *)

Section DeepDive.

(** The evaluation of the radius for a tile's latitude and side; the
    loop is stated for any such evaluation and instantiated below with
    the call the source makes. *)
Variable radius_call : Q -> Q -> result R.

(** The part of the body after a successful query. *)
Definition deep_dive_after_query (s : AdaptiveSearch) (w : World)
    (lat lng size : Q) (places : list Place) (count pages : Z)
    : AdaptiveSearch * World :=
  let m := api_metrics s in
  let s := with_api_metrics
             (mkMetrics (total_requests m + 1) (results_returned m + count)
                        (unique_results m)) s in
  let s := with_deep_count (deep_count s + 1) s in
  let s := foldl deep_add_unique s places in
  let '(s, w) :=
    if deep_flush_due s then
      let '(buf, w') := flush_chunk (city s) (chunk_buffer s) w in
      (with_chunk_buffer buf s, w')
    else (s, w) in
  let w :=
    if deep_count s mod 3 =? 0 then
      save_search_state w (city s +:+ "_deep_dive") (initial_tiles s)
        (high_density_stack s) (processed s) (seen_place_ids s) (deep_count s)
    else w in
  let s :=
    if subdivide_due s size pages count then
      with_high_density_stack
        (high_density_stack s ++ subdivide_tile (lat, lng, size)) s
    else s in
  (s, w).

Definition deep_dive_step (s : AdaptiveSearch) (w : World) : Step :=
  if deep_dive_continues s then
    match pop (high_density_stack s) with
    | None => Finished s w
    | Some ((lat, lng, size), rest) =>
        let s := with_high_density_stack rest s in
        let tile_key := tile_key (lat, lng, size) in
        if decide (tile_key ∈ processed s) then Continue s w
        else
          let s := with_processed ({[tile_key]} ∪ processed s) s in
          match radius_call lat size with
          | Raise e => Aborted e s w
          | Ok adjusted_radius =>
              let '(ret, w) :=
                get_nearby_places w lat lng adjusted_radius (location_type s) in
              match unpack3 ret with
              | Raise e => Aborted e s w
              | Ok (places, count, pages) =>
                  let '(s, w) :=
                    deep_dive_after_query s w lat lng size places count pages in
                  Continue s w
              end
          end
    end
  else Finished s w.

(** The [while] loop inside the [try], run for at most [fuel]
    evaluations of its test; [None] when they do not suffice. *)
Fixpoint deep_dive_loop (fuel : nat) (s : AdaptiveSearch) (w : World)
    : option Outcome :=
  match fuel with
  | O => None
  | S fuel' =>
      match deep_dive_step s w with
      | Continue s' w' => deep_dive_loop fuel' s' w'
      | Finished s' w' => Some (None, s', w')
      | Aborted e s' w' => Some (Some e, s', w')
      end
  end.


End DeepDive.


(* ===================================================================== *)
(** ** Reading a tile key back *)
(* ===================================================================== *)

Definition digit_value (c : ascii) : option Z :=
  let n := Z.of_nat (nat_of_ascii c) in
  if (48 <=? n) && (n <=? 57) then Some (n - 48) else None.

(** The fields of a key, each as its sign and its value in units of 1e-6:
    a comma ends a field, a dash marks it negative, digits accumulate and
    the decimal point is skipped. *)
Fixpoint read_fields (s : string) (neg : bool) (acc : Z) : list (bool * Z) :=
  match s with
  | EmptyString => [(neg, acc)]
  | String c s' =>
      if Ascii.eqb c "," then (neg, acc) :: read_fields s' false 0
      else if Ascii.eqb c "-" then read_fields s' true acc
      else match digit_value c with
           | Some d => read_fields s' neg (acc * 10 + d)
           | None => read_fields s' neg acc
           end
  end.

Definition read_key (key : string) : list (bool * Z) := read_fields key false 0.

(** Two fields print alike under [.6f]: same sign, same rounded value. *)
Definition print_alike (x y : Q) : Prop :=
  micro_sign x = micro_sign y /\ micro_units x = micro_units y.

(** Two fields differ by at most 1e-6. *)
Definition within_1e6 (x y : Q) : Prop := (Qabs (x - y) <= 1 # 1000000)%Q.

(* ===================================================================== *)
(** ** Auxiliary notions for the ledger *)
(* ===================================================================== *)

(** The identifiers of a batch of records, as a list and as a set. *)
Definition ids_of (places : list Place) : list string := place_id <$> places.
Definition id_set (places : list Place) : gset string := list_to_set (ids_of places).

(** The records that one pass of the ledger loop over [places] appends to
    the buffer when the ledger holds [seen] before the pass. *)
Fixpoint retained (seen : gset string) (places : list Place) : list Place :=
  match places with
  | [] => []
  | p :: places' =>
      if decide (place_id p ∈ seen) then retained seen places'
      else p :: retained ({[place_id p]} ∪ seen) places'
  end.

(* ===================================================================== *)
(** ** Auxiliary notions for the frontier *)
(* ===================================================================== *)

(** [s'] differs from [s] at most in the ledger, the buffer and the
    metrics: configuration, frontier and counters are the same. *)
Definition same_frontier (s s' : AdaptiveSearch) : Prop :=
  chunk_size s' = chunk_size s /\
  min_step s' = min_step s /\
  city s' = city s /\
  location_type s' = location_type s /\
  processed s' = processed s /\
  deep_count s' = deep_count s /\
  max_deep_dives s' = max_deep_dives s /\
  initial_tiles s' = initial_tiles s /\
  high_density_stack s' = high_density_stack s.




(** A batch of [n] records with pairwise distinct identifiers. *)
Definition sample_places (n : nat) : list Place :=
  (fun i => mkPlace (decimal (Z.of_nat i)) "") <$> seq 0 n.

(** A world with no pending responses and empty files. *)
Definition quiet_world : World :=
  {| http_script := []; queries := []; csv_files := ∅; ckpt_files := ∅;
     ckpt_dir_ok := true; now := 0; ts := "20250101" |}.

(** The controller of the class docstring's usage example. *)
Definition dublin : AdaptiveSearch :=
  init "Dublin" 1000 (1 # 100) (1 # 400) 60 500 "restaurant".

(** Two neighbouring initial tiles. *)
Definition tile_a : Tile := (5335 # 100, -(626 # 100), 1 # 100)%Q.
Definition tile_b : Tile := (5336 # 100, -(626 # 100), 1 # 100)%Q.


(** A world whose next HTTP responses are [script]. *)
Definition world_with (script : list HttpOutcome) : World :=
  with_http script quiet_world.

(** A checkpoint dictionary written under another format version. *)
Definition foreign_snapshot : Snapshot :=
  {| snap_timestamp := 0;
     snap_city := "Dublin";
     snap_initial_tiles := [tile_a; tile_b];
     snap_high_density_stack := [tile_a];
     snap_processed := ∅;
     snap_seen_place_ids := {["p1"]};
     snap_deep_count := 0;
     snap_version := "0.9.0" |}.

(** A world whose checkpoint for Dublin holds [foreign_snapshot]. *)
Definition world_with_foreign_checkpoint : World :=
  with_ckpt {[ "checkpoint_dublin.ckpt" := Pickled foreign_snapshot ]} quiet_world.

(** A provider that has sixty records for every query: each query gets
    three full pages; [n] queries are scripted. *)
Definition saturating_script (n : nat) : list HttpOutcome :=
  mjoin (replicate n
    [ HttpJson "OK" (sample_places 20) (Some "page2");
      HttpJson "OK" (sample_places 20) (Some "page3");
      HttpJson "OK" (sample_places 20) None ]).

(** A radius evaluation that succeeds, for exercising the loop body. *)
Definition unit_radius (lat size : Q) : result R := Ok 1%R.


Definition place_a : Place := mkPlace "ChIJ-a" "Cafe A".

(* ===================================================================== *)
(** ** The initial grid ([spatial/tiles.py], [generate_initial_tiles]) *)
(* ===================================================================== *)

(** The [viewport] dictionary of the geocoder: the south-west and the
    north-east corner. *)
Record Viewport : Type := mkViewport
  { sw_lat : Q; sw_lng : Q; ne_lat : Q; ne_lng : Q }.

(** The padding added on every side. *)
Definition grid_padding : Q := 5 # 100.

(** The inner loop [while lng <= lng_max], run for at most [fuel] tests;
    [None] when they do not suffice. *)
Fixpoint grid_row (fuel : nat) (lat lng lng_max initial_step : Q)
    (tiles : list Tile) : option (list Tile) :=
  match fuel with
  | O => None
  | S fuel' =>
      if Qle_bool lng lng_max then
        grid_row fuel' lat (lng + initial_step)%Q lng_max initial_step
          (tiles ++ [create_tile lat lng initial_step])
      else Some tiles
  end.

(** The outer loop [while lat <= lat_max]; every inner loop gets
    [row_fuel] tests. *)
Fixpoint grid_rows (fuel row_fuel : nat) (lat lat_max lng_min lng_max
    initial_step : Q) (tiles : list Tile) : option (list Tile) :=
  match fuel with
  | O => None
  | S fuel' =>
      if Qle_bool lat lat_max then
        match grid_row row_fuel lat lng_min lng_max initial_step tiles with
        | None => None
        | Some tiles' =>
            grid_rows fuel' row_fuel (lat + initial_step)%Q lat_max lng_min
              lng_max initial_step tiles'
        end
      else Some tiles
  end.

(** [generate_initial_tiles]; the centre is accepted and not used. *)
Definition generate_initial_tiles (fuel : nat) (center_lat center_lng : Q)
    (viewport : Viewport) (initial_step : Q) : option (list Tile) :=
  let lat_min := (sw_lat viewport - grid_padding)%Q in
  let lng_min := (sw_lng viewport - grid_padding)%Q in
  let lat_max := (ne_lat viewport + grid_padding)%Q in
  let lng_max := (ne_lng viewport + grid_padding)%Q in
  grid_rows fuel fuel lat_min lat_max lng_min lng_max initial_step [].





(** The viewport of the city of Dublin, rounded. *)
Definition dublin_viewport : Viewport :=
  mkViewport (5330 # 100) (-(633 # 100)) (5340 # 100) (-(620 # 100)).

(* ===================================================================== *)
(** ** Views of the environment *)
(* ===================================================================== *)

(** The name of a city's result file and the rows it holds (none when the
    file does not exist). *)
Definition csv_name (city : string) : string := lower city +:+ "_restaurants.csv".

Definition csv_rows (w : World) (city : string) : list Place :=
  default [] (csv_files w !! csv_name city).

(** Whether an HTTP exchange delivered a page, and the records it
    delivered. *)
Definition is_ok_page (o : HttpOutcome) : bool :=
  match o with
  | HttpJson status _ _ => String.eqb status "OK"
  | HttpFailure => false
  end.

Definition ok_results (o : HttpOutcome) : list Place :=
  match o with
  | HttpJson status results _ => if String.eqb status "OK" then results else []
  | HttpFailure => []
  end.






(* ===================================================================== *)
(** ** The entry points ([AdaptiveSearch.run_initial_scan], [run]) *)
(* ===================================================================== *)



Section Run.

(** [get_city_center]: the centre and the viewport of the city, or the
    exception it re-raises.  Its geocoding request is answered here and
    not from the script of place-search responses. *)
Variable get_city_center : string -> result (Q * Q * Viewport).



End Run.


(* ===================================================================== *)
(** ** Views of the checkpoint directory *)
(* ===================================================================== *)




(* ===================================================================== *)
(** * Properties *)
(* ===================================================================== *)

(** ** Subdivision *)

Lemma subdivide_tile_length t : length (subdivide_tile t) = 4%nat.
Proof. by destruct t as [[lat lng] size]. Qed.



(** ** Tile keys *)

Example tile_key_dublin :
  tile_key (5335 # 100, -(626 # 100), 1 # 100)%Q = "53.350000,-6.260000,0.010000".
Proof. vm_compute. reflexivity. Qed.

Example format_6f_tie_even : format_6f (1 # 128) = "0.007812".
Proof. vm_compute. reflexivity. Qed.

Example format_6f_neg_zero : format_6f (-(1 # 10000000)) = "-0.000000".
Proof. vm_compute. reflexivity. Qed.

Lemma micro_sign_lt (x : Q) : micro_sign x = true <-> (x < 0)%Q.
Proof.
  unfold micro_sign, Qlt. rewrite bool_decide_eq_true. simpl. lia.
Qed.

Lemma micro_sign_comp (x y : Q) : (x == y)%Q -> micro_sign x = micro_sign y.
Proof.
  intros E. apply eq_true_iff_eq. rewrite !micro_sign_lt, E. reflexivity.
Qed.

Lemma round_half_even_comp (x y : Q) :
  (x == y)%Q -> round_half_even x = round_half_even y.
Proof.
  intros E. unfold round_half_even.
  rewrite (Qfloor_comp _ _ E).
  assert (C : (x - inject_Z (Qfloor y) ?= 1 # 2)%Q
            = (y - inject_Z (Qfloor y) ?= 1 # 2)%Q) by (rewrite E; reflexivity).
  rewrite C. reflexivity.
Qed.

Lemma micro_units_comp (x y : Q) : (x == y)%Q -> micro_units x = micro_units y.
Proof.
  intros E. unfold micro_units. apply round_half_even_comp. rewrite E. reflexivity.
Qed.

Lemma format_6f_comp (x y : Q) : (x == y)%Q -> format_6f x = format_6f y.
Proof.
  intros E. unfold format_6f.
  rewrite (micro_sign_comp _ _ E), (micro_units_comp _ _ E). reflexivity.
Qed.

(** The rounded value is within one half of the argument. *)
Lemma round_half_even_near (x : Q) :
  (inject_Z (round_half_even x) - (1 # 2) <= x
   /\ x <= inject_Z (round_half_even x) + (1 # 2))%Q.
Proof.
  unfold round_half_even.
  pose proof (Qfloor_le x) as Hl. pose proof (Qlt_floor x) as Hu.
  rewrite inject_Z_plus in Hu. change (inject_Z 1) with 1%Q in Hu.
  destruct (x - inject_Z (Qfloor x) ?= 1 # 2)%Q eqn:C.
  - apply Qeq_alt in C.
    destruct (Z.even (Qfloor x)); rewrite ?inject_Z_plus;
      change (inject_Z 1) with 1%Q; split; lra.
  - apply Qlt_alt in C. split; lra.
  - apply Qgt_alt in C. rewrite inject_Z_plus.
    change (inject_Z 1) with 1%Q. split; lra.
Qed.

Lemma round_half_even_nonneg (x : Q) : (0 <= x)%Q -> 0 <= round_half_even x.
Proof.
  intros Hx. unfold round_half_even.
  assert (0 <= Qfloor x).
  { change 0 with (Qfloor (inject_Z 0)) at 1. rewrite <- (Qfloor_Z 0).
    apply Qfloor_resp_le. exact Hx. }
  destruct (x - inject_Z (Qfloor x) ?= 1 # 2)%Q;
    [destruct (Z.even (Qfloor x)) | |]; lia.
Qed.

Lemma micro_units_nonneg (x : Q) : 0 <= micro_units x.
Proof.
  apply round_half_even_nonneg.
  pose proof (Qabs_nonneg x). nra.
Qed.

Lemma string_app_cons (c : ascii) (a b : string) :
  String c a +:+ b = String c (a +:+ b).
Proof. reflexivity. Qed.

Lemma string_app_nil (b : string) : "" +:+ b = b.
Proof. reflexivity. Qed.

Lemma string_app_nil_r (a : string) : a +:+ "" = a.
Proof.
  induction a as [| x a' IH]; [reflexivity |].
  rewrite string_app_cons. f_equal. exact IH.
Qed.

Lemma string_app_assoc (a b c : string) : (a +:+ b) +:+ c = a +:+ (b +:+ c).
Proof.
  induction a as [| x a' IH]; [reflexivity |].
  rewrite !string_app_cons. f_equal. exact IH.
Qed.

Ltac zlia := Z.to_euclidean_division_equations; nia.

Ltac str_simpl := rewrite ?string_app_cons, ?string_app_nil.

Lemma read_fields_digit (d : Z) (s : string) (neg : bool) (a : Z) :
  0 <= d <= 9 ->
  read_fields (String (digit_char d) s) neg a = read_fields s neg (a * 10 + d).
Proof.
  intros Hd.
  assert (d = 0 \/ d = 1 \/ d = 2 \/ d = 3 \/ d = 4 \/ d = 5 \/ d = 6 \/ d = 7
          \/ d = 8 \/ d = 9) as Hc by lia.
  destruct Hc as [-> | [-> | [-> | [-> | [-> | [-> | [-> | [-> | [-> | ->]]]]]]]]];
    reflexivity.
Qed.

Lemma read_fields_decimal_go (fuel : nat) :
  forall (n : Z) (str : string), 0 <= n < 2 ^ Z.of_nat fuel ->
  exists k : nat, forall t neg a,
    read_fields (decimal_go fuel n str +:+ t) neg a
    = read_fields (str +:+ t) neg (a * 10 ^ Z.of_nat k + n).
Proof.
  induction fuel as [| fuel IH]; intros n str Hn.
  - exists 0%nat. intros t neg a. change (Z.of_nat 0) with 0 in *.
    rewrite Z.pow_0_r in *. cbn [decimal_go]. f_equal. lia.
  - assert (Hd : 0 <= n mod 10 <= 9) by zlia.
    simpl decimal_go. destruct (n / 10 =? 0) eqn:E.
    + exists 1%nat. intros t neg a. str_simpl.
      rewrite read_fields_digit by done.
      f_equal. apply Z.eqb_eq in E. zlia.
    + apply Z.eqb_neq in E.
      destruct (IH (n / 10) (String (digit_char (n mod 10)) str)) as [k Hk].
      { rewrite Nat2Z.inj_succ, Z.pow_succ_r in Hn by lia. zlia. }
      exists (S k). intros t neg a. rewrite Hk. str_simpl.
      rewrite read_fields_digit by done. f_equal.
      rewrite Nat2Z.inj_succ, Z.pow_succ_r by lia. zlia.
Qed.

Lemma read_fields_decimal (n : Z) (t : string) (neg : bool) :
  0 <= n -> read_fields (decimal n +:+ t) neg 0 = read_fields t neg n.
Proof.
  intros Hn. unfold decimal.
  destruct (read_fields_decimal_go (S (Z.to_nat (Z.log2 n))) n "") as [k Hk].
  { split; [done |]. rewrite Nat2Z.inj_succ, Z2Nat.id by apply Z.log2_nonneg.
    destruct (decide (n = 0)) as [-> | Hz]; [done |].
    apply Z.log2_spec. lia. }
  rewrite Hk. str_simpl. f_equal.
Qed.

Lemma read_fields_frac6 (m : Z) (t : string) (neg : bool) (a : Z) :
  0 <= m < 1000000 ->
  read_fields (frac6 m +:+ t) neg a = read_fields t neg (a * 1000000 + m).
Proof.
  intros Hm. unfold frac6. str_simpl.
  rewrite !read_fields_digit by zlia. f_equal. zlia.
Qed.

Lemma read_fields_comma (t : string) (neg : bool) (a : Z) :
  read_fields (String "," t) neg a = (neg, a) :: read_fields t false 0.
Proof. reflexivity. Qed.

Lemma read_fields_dash (t : string) (neg : bool) (a : Z) :
  read_fields (String "-" t) neg a = read_fields t true a.
Proof. reflexivity. Qed.

Lemma read_fields_point (t : string) (neg : bool) (a : Z) :
  read_fields (String "." t) neg a = read_fields t neg a.
Proof. reflexivity. Qed.

Lemma read_fields_format_6f (x : Q) (t : string) :
  read_fields (format_6f x +:+ t) false 0
  = read_fields t (micro_sign x) (micro_units x).
Proof.
  unfold format_6f. pose proof (micro_units_nonneg x) as Hn.
  set (n := micro_units x) in *.
  rewrite !string_app_assoc.
  assert (Hrest : forall neg,
    read_fields (decimal (n / 1000000) +:+ "." +:+ frac6 (n mod 1000000) +:+ t)
      neg 0 = read_fields t neg n).
  { intros neg. rewrite read_fields_decimal by zlia. str_simpl.
    rewrite read_fields_point, read_fields_frac6 by zlia. f_equal. zlia. }
  destruct (micro_sign x); str_simpl; [| apply Hrest].
  rewrite read_fields_dash. apply Hrest.
Qed.

Lemma read_key_tile_key (lat lng size : Q) :
  read_key (tile_key (lat, lng, size))
  = [ (micro_sign lat, micro_units lat);
      (micro_sign lng, micro_units lng);
      (micro_sign size, micro_units size) ].
Proof.
  unfold read_key, tile_key; cbv beta iota.
  rewrite (read_fields_format_6f lat). str_simpl. rewrite read_fields_comma.
  rewrite (read_fields_format_6f lng). str_simpl. rewrite read_fields_comma.
  rewrite <- (string_app_nil_r (format_6f size)).
  rewrite (read_fields_format_6f size). reflexivity.
Qed.

Lemma print_alike_format (x y : Q) : print_alike x y -> format_6f x = format_6f y.
Proof. intros [Hs Hu]. unfold format_6f. rewrite Hs, Hu. reflexivity. Qed.

Lemma print_alike_within (x y : Q) : print_alike x y -> within_1e6 x y.
Proof.
  intros [Hs Hu]. unfold within_1e6.
  pose proof (round_half_even_near (Qabs x * 1000000)) as [Hx1 Hx2].
  pose proof (round_half_even_near (Qabs y * 1000000)) as [Hy1 Hy2].
  fold (micro_units x) in Hx1, Hx2. fold (micro_units y) in Hy1, Hy2.
  rewrite Hu in Hx1, Hx2.
  apply Qabs_Qle_condition.
  destruct (micro_sign x) eqn:Sx; symmetry in Hs.
  - apply micro_sign_lt in Sx, Hs.
    rewrite (Qabs_neg x) in Hx1, Hx2 by lra.
    rewrite (Qabs_neg y) in Hy1, Hy2 by lra. split; lra.
  - assert (~ (x < 0)%Q) as Nx by (rewrite <- micro_sign_lt, Sx; discriminate).
    assert (~ (y < 0)%Q) as Ny by (rewrite <- micro_sign_lt, Hs; discriminate).
    rewrite (Qabs_pos x) in Hx1, Hx2 by lra.
    rewrite (Qabs_pos y) in Hy1, Hy2 by lra. split; lra.
Qed.

Lemma tile_key_inv (a b : Tile) :
  tile_key a = tile_key b ->
  print_alike (tile_lat a) (tile_lat b) /\
  print_alike (tile_lng a) (tile_lng b) /\
  print_alike (tile_size a) (tile_size b).
Proof.
  destruct a as [[la ga] sa], b as [[lb gb] sb]. intros E.
  apply (f_equal read_key) in E. rewrite !read_key_tile_key in E.
  unfold print_alike, tile_lat, tile_lng, tile_size; cbn [fst snd].
  by simplify_eq.
Qed.

(** C10 (amended). The key is the [.6f] rendering of the three fields
    joined by commas, a function of the tile alone.  Two tiles have equal
    keys exactly when each pair of corresponding fields prints alike (same
    sign, same half-even rounding to six decimals); tiles with equal keys
    have corresponding fields within 1e-6 of each other. *)
Theorem tile_key_six_decimals (a b : Tile) :
  tile_key a = format_6f (tile_lat a) +:+ "," +:+ format_6f (tile_lng a)
               +:+ "," +:+ format_6f (tile_size a) /\
  (tile_eqv a b -> tile_key a = tile_key b) /\
  (tile_key a = tile_key b <->
     print_alike (tile_lat a) (tile_lat b) /\
     print_alike (tile_lng a) (tile_lng b) /\
     print_alike (tile_size a) (tile_size b)) /\
  (tile_key a = tile_key b ->
     within_1e6 (tile_lat a) (tile_lat b) /\
     within_1e6 (tile_lng a) (tile_lng b) /\
     within_1e6 (tile_size a) (tile_size b)).
Proof.
  assert (Hback : print_alike (tile_lat a) (tile_lat b) /\
                  print_alike (tile_lng a) (tile_lng b) /\
                  print_alike (tile_size a) (tile_size b) ->
                  tile_key a = tile_key b).
  { destruct a as [[la ga] sa], b as [[lb gb] sb].
    unfold tile_lat, tile_lng, tile_size; cbn [fst snd].
    intros (H1 & H2 & H3). unfold tile_key.
    by rewrite (print_alike_format _ _ H1), (print_alike_format _ _ H2),
               (print_alike_format _ _ H3). }
  split; [by destruct a as [[la ga] sa] |].
  split.
  { intros (H1 & H2 & H3). apply Hback.
    unfold print_alike.
    by rewrite (micro_sign_comp _ _ H1), (micro_units_comp _ _ H1),
               (micro_sign_comp _ _ H2), (micro_units_comp _ _ H2),
               (micro_sign_comp _ _ H3), (micro_units_comp _ _ H3). }
  split; [split; [apply tile_key_inv | apply Hback] |].
  intros E. apply tile_key_inv in E as (H1 & H2 & H3).
  auto using print_alike_within.
Qed.

(** The theorem at work: 0.0100004 and 0.0099996 both print as 0.010000,
    so the two tiles share a key. *)
Lemma tile_key_six_decimals_witness :
  tile_key (5335 # 100, -(626 # 100), 100004 # 10000000)%Q
  = tile_key (5335 # 100, -(626 # 100), 99996 # 10000000)%Q /\
  within_1e6 (100004 # 10000000) (99996 # 10000000).
Proof.
  pose proof (tile_key_six_decimals
                (5335 # 100, -(626 # 100), 100004 # 10000000)%Q
                (5335 # 100, -(626 # 100), 99996 # 10000000)%Q)
    as (_ & _ & Hiff & Hclose).
  assert (E : tile_key (5335 # 100, -(626 # 100), 100004 # 10000000)%Q
            = tile_key (5335 # 100, -(626 # 100), 99996 # 10000000)%Q).
  { apply Hiff. repeat split; vm_compute; reflexivity. }
  split; [exact E | exact (proj2 (proj2 (Hclose E)))].
Defined.

(** C10, as stated, fails: latitudes 0.0000004 and 0.0000006 are within
    1e-6 of each other and the other fields are equal, yet the keys are
    "0.000000,..." and "0.000001,...". *)
Lemma tile_key_within_1e6_differ :
  (within_1e6 (4 # 10000000) (6 # 10000000) /\
   within_1e6 0 0 /\ within_1e6 (1 # 100) (1 # 100)) /\
  tile_key (4 # 10000000, 0, 1 # 100)%Q = "0.000000,0.000000,0.010000" /\
  tile_key (6 # 10000000, 0, 1 # 100)%Q = "0.000001,0.000000,0.010000" /\
  tile_key (4 # 10000000, 0, 1 # 100)%Q <> tile_key (6 # 10000000, 0, 1 # 100)%Q.
Proof.
  split; [repeat split; apply Qle_bool_iff; reflexivity |].
  split; [vm_compute; reflexivity |].
  split; [vm_compute; reflexivity |].
  vm_compute. discriminate.
Qed.

(** ** The deduplication ledger *)

Lemma add_unique_row_to_final_list_cons s p places :
  add_unique_row_to_final_list s (p :: places)
  = add_unique_row_to_final_list (add_unique_row s p) places.
Proof. reflexivity. Qed.

Lemma add_unique_rows_spec (places : list Place) :
  forall s : AdaptiveSearch,
    let s' := add_unique_row_to_final_list s places in
    chunk_buffer s' = chunk_buffer s ++ retained (seen_place_ids s) places /\
    seen_place_ids s' = seen_place_ids s ∪ id_set places /\
    new_places s' = new_places s
                    + Z.of_nat (length (retained (seen_place_ids s) places)) /\
    unique_results (api_metrics s')
    = unique_results (api_metrics s)
      + Z.of_nat (length (retained (seen_place_ids s) places)).
Proof.
  induction places as [| p places IH]; intros s; cbn zeta.
  - cbn. rewrite app_nil_r. unfold id_set, ids_of. cbn.
    repeat split; [set_solver | lia | lia].
  - rewrite add_unique_row_to_final_list_cons.
    destruct (IH (add_unique_row s p)) as (Hb & Hs & Hn & Hu).
    rewrite Hb, Hs, Hn, Hu. clear IH Hb Hs Hn Hu.
    unfold add_unique_row, id_set, ids_of. cbn [retained fmap list_fmap list_to_set].
    destruct (decide (place_id p ∈ seen_place_ids s)) as [Hin | Hnin]; cbn.
    + repeat split; try reflexivity. set_solver.
    + rewrite <- app_assoc. cbn.
      repeat split; [set_solver | lia | lia].
Qed.

Lemma deep_add_unique_spec (places : list Place) :
  forall s : AdaptiveSearch,
    let s' := foldl deep_add_unique s places in
    chunk_buffer s' = chunk_buffer s ++ retained (seen_place_ids s) places /\
    seen_place_ids s' = seen_place_ids s ∪ id_set places /\
    unique_results (api_metrics s')
    = unique_results (api_metrics s)
      + Z.of_nat (length (retained (seen_place_ids s) places)).
Proof.
  induction places as [| p places IH]; intros s; cbn zeta.
  - cbn. rewrite app_nil_r. unfold id_set, ids_of. cbn.
    repeat split; [set_solver | lia].
  - cbn [foldl].
    destruct (IH (deep_add_unique s p)) as (Hb & Hs & Hu).
    rewrite Hb, Hs, Hu. clear IH Hb Hs Hu.
    unfold deep_add_unique, id_set, ids_of. cbn [retained fmap list_fmap list_to_set].
    destruct (decide (place_id p ∈ seen_place_ids s)) as [Hin | Hnin]; cbn.
    + repeat split; try reflexivity. set_solver.
    + rewrite <- app_assoc. cbn.
      repeat split; [set_solver | lia].
Qed.

Lemma retained_length (places : list Place) :
  forall seen : gset string,
    length (retained seen places) = size (id_set places ∖ seen).
Proof.
  induction places as [| p places IH]; intros seen.
  - cbn. unfold id_set, ids_of. cbn.
    replace ((∅ : gset string) ∖ seen) with (∅ : gset string) by set_solver.
    by rewrite size_empty.
  - unfold id_set, ids_of in *. cbn [retained fmap list_fmap list_to_set].
    set (X := list_to_set (place_id <$> places) : gset string) in *.
    destruct (decide (place_id p ∈ seen)) as [Hin | Hnin].
    + rewrite IH. f_equal. set_solver.
    + cbn [length]. rewrite IH.
      assert (Heq : ({[place_id p]} ∪ X) ∖ seen
                    = {[place_id p]} ∪ (X ∖ ({[place_id p]} ∪ seen))).
      { apply set_eq. intros x. destruct (decide (x = place_id p)); set_solver. }
      rewrite Heq.
      assert (Hsz : size ({[place_id p]} ∪ X ∖ ({[place_id p]} ∪ seen))
                    = (size ({[place_id p]} : gset string)
                       + size (X ∖ ({[place_id p]} ∪ seen)))%nat)
        by (apply size_union; set_solver).
      by rewrite Hsz, size_singleton.
Qed.

Lemma retained_ids_fresh (places : list Place) :
  forall seen : gset string,
    NoDup (ids_of (retained seen places)) /\
    (forall p, p ∈ retained seen places -> (place_id p ∉ seen) /\ (p ∈ places)).
Proof.
  induction places as [| p places IH]; intros seen.
  - cbn. split; [constructor | intros q Hq; by apply elem_of_nil in Hq].
  - cbn [retained].
    destruct (decide (place_id p ∈ seen)) as [Hin | Hnin].
    + destruct (IH seen) as [Hnd Hfr]. split; [done |].
      intros q Hq. destruct (Hfr q Hq). split; [done | by right].
    + destruct (IH ({[place_id p]} ∪ seen)) as [Hnd Hfr]. split.
      * unfold ids_of in *. cbn. constructor; [| done].
        intros Hm. apply list_elem_of_fmap in Hm as (q & Hq1 & Hq2).
        destruct (Hfr q Hq2) as [Hq3 _]. set_solver.
      * intros q Hq. apply elem_of_cons in Hq as [-> | Hq].
        -- split; [done | by left].
        -- destruct (Hfr q Hq). split; [set_solver | by right].
Qed.

Lemma retained_seen_all (places : list Place) (seen : gset string) :
  id_set places ⊆ seen -> retained seen places = [].
Proof.
  revert seen. induction places as [| p places IH]; intros seen Hsub; [done |].
  unfold id_set, ids_of in *. cbn [retained]. cbn in Hsub.
  destruct (decide (place_id p ∈ seen)); [apply IH | ]; set_solver.
Qed.

Lemma id_set_Permutation (places places' : list Place) :
  places ≡ₚ places' -> id_set places = id_set places'.
Proof.
  intros HP. unfold id_set, ids_of. apply set_eq. intros x.
  rewrite !elem_of_list_to_set. by rewrite HP.
Qed.

(** C4. Filtering through the ledger is idempotent.  For every controller
    state and every batch [places], the pass appends to the buffer exactly
    the records [new] with: one record per distinct identifier not already
    in the ledger (so [M] records for [M] distinct identifiers on a fresh
    ledger), no identifier twice, the counter [new_places] advanced by
    [length new], the same number for every reordering of the batch, and
    nothing at all when the same batch is passed a second time.  The
    inline loop of the deep dive retains the same records. *)
Theorem ledger_filter_idempotent (s : AdaptiveSearch) (places : list Place) :
  let s' := add_unique_row_to_final_list s places in
  exists new : list Place,
    chunk_buffer s' = chunk_buffer s ++ new /\
    new_places s' = new_places s + Z.of_nat (length new) /\
    seen_place_ids s' = seen_place_ids s ∪ id_set places /\
    length new = size (id_set places ∖ seen_place_ids s) /\
    (seen_place_ids s = ∅ -> length new = size (id_set places)) /\
    NoDup (ids_of new) /\
    (forall p, p ∈ new -> (place_id p ∉ seen_place_ids s) /\ (p ∈ places)) /\
    (forall places' : list Place, places ≡ₚ places' ->
       length (chunk_buffer (add_unique_row_to_final_list s places'))
       = length (chunk_buffer s')) /\
    chunk_buffer (add_unique_row_to_final_list s' places) = chunk_buffer s' /\
    new_places (add_unique_row_to_final_list s' places) = new_places s' /\
    chunk_buffer (foldl deep_add_unique s places) = chunk_buffer s' /\
    seen_place_ids (foldl deep_add_unique s places) = seen_place_ids s'.
Proof.
  cbn zeta.
  destruct (add_unique_rows_spec places s) as (Hb & Hs & Hn & _).
  exists (retained (seen_place_ids s) places).
  split; [exact Hb |]. split; [exact Hn |]. split; [exact Hs |].
  split; [apply retained_length |].
  split.
  { intros He. rewrite retained_length, He. f_equal. set_solver. }
  split; [apply retained_ids_fresh |].
  split; [apply retained_ids_fresh |].
  split.
  { intros places' HP.
    destruct (add_unique_rows_spec places' s) as (Hb' & _).
    rewrite Hb', Hb, !length_app, !retained_length.
    by rewrite (id_set_Permutation _ _ HP). }
  destruct (add_unique_rows_spec places (add_unique_row_to_final_list s places))
    as (Hb2 & _ & Hn2 & _).
  assert (Hnil : retained
            (seen_place_ids (add_unique_row_to_final_list s places)) places = []).
  { apply retained_seen_all. rewrite Hs. set_solver. }
  rewrite Hnil in Hb2, Hn2.
  split; [by rewrite Hb2, app_nil_r |].
  split; [rewrite Hn2; cbn; lia |].
  destruct (deep_add_unique_spec places s) as (Hb3 & Hs3 & _).
  by rewrite Hb3, Hs3, Hb, Hs.
Qed.

(** The theorem at work: three records with two distinct identifiers on
    a fresh ledger leave two records in the buffer. *)
Lemma ledger_filter_idempotent_witness :
  length (chunk_buffer
            (add_unique_row_to_final_list
               (init "Dublin" 1000 (1 # 100) (1 # 400) 60 500 "restaurant")
               [mkPlace "a" "x"; mkPlace "b" "y"; mkPlace "a" "z"])) = 2%nat.
Proof.
  destruct (ledger_filter_idempotent
              (init "Dublin" 1000 (1 # 100) (1 # 400) 60 500 "restaurant")
              [mkPlace "a" "x"; mkPlace "b" "y"; mkPlace "a" "z"])
    as (new & Hb & _ & _ & _ & Hfresh & _).
  rewrite Hb, length_app, (Hfresh eq_refl). vm_compute. reflexivity.
Defined.

(** ** Saturation *)

Lemma same_frontier_refl s : same_frontier s s.
Proof. by repeat split. Qed.

Lemma same_frontier_trans s1 s2 s3 :
  same_frontier s1 s2 -> same_frontier s2 s3 -> same_frontier s1 s3.
Proof.
  unfold same_frontier. intros H1 H2.
  destruct_and!. repeat split; congruence.
Qed.

Lemma deep_add_unique_frontier s p : same_frontier s (deep_add_unique s p).
Proof.
  unfold deep_add_unique. destruct (decide _); by repeat split.
Qed.

Lemma foldl_deep_add_unique_frontier places :
  forall s, same_frontier s (foldl deep_add_unique s places).
Proof.
  induction places as [| p places IH]; intros s; cbn [foldl].
  - apply same_frontier_refl.
  - eapply same_frontier_trans; [apply deep_add_unique_frontier | apply IH].
Qed.

Lemma saturated_iff (pages count : Z) :
  saturated pages count = true <-> pages = 3 /\ count = 60.
Proof. unfold saturated. rewrite andb_true_iff, !Z.eqb_eq. reflexivity. Qed.







(** ** The query client and the controller's handling of its failures *)

(** Three quota refusals use up the three iterations: the normal return,
    an empty triple. *)
Lemma get_nearby_places_quota_exhausted w lat lng radius type_ rest :
  http_script w = HttpJson "OVER_QUERY_LIMIT" [] None
                  :: HttpJson "OVER_QUERY_LIMIT" [] None
                  :: HttpJson "OVER_QUERY_LIMIT" [] None :: rest ->
  (get_nearby_places w lat lng radius type_).1 = Tuple3 [] 0 0.
Proof. intros H. unfold get_nearby_places. cbn. rewrite H. reflexivity. Qed.

(** A request that raises on the first page: the handler's return, a pair. *)
Lemma get_nearby_places_failure w lat lng radius type_ rest :
  http_script w = HttpFailure :: rest ->
  (get_nearby_places w lat lng radius type_).1 = Tuple2 [] 0.
Proof. intros H. unfold get_nearby_places. cbn. rewrite H. reflexivity. Qed.

(** Whatever the responses, the client returns the empty pair or a triple
    whose count is the number of records. *)
Lemma get_nearby_places_shape w lat lng radius type_ :
  (get_nearby_places w lat lng radius type_).1 = Tuple2 [] 0 \/
  exists places pages,
    (get_nearby_places w lat lng radius type_).1
    = Tuple3 places (Z.of_nat (length places)) pages.
Proof.
  unfold get_nearby_places.
  destruct (fetch_pages _ _ _ _) as [[[places pages] | e] rest]; cbn; eauto.
Qed.

(** Quota exhaustion is handled as an empty, unsaturated result: the scan
    of the tile completes without an exception and nothing is pushed. *)
Lemma crawl_tile_quota_exhausted s w lat lng size rest :
  http_script w = HttpJson "OVER_QUERY_LIMIT" [] None
                  :: HttpJson "OVER_QUERY_LIMIT" [] None
                  :: HttpJson "OVER_QUERY_LIMIT" [] None :: rest ->
  exists s' w', crawl_tile s w (lat, lng, size) = (None, s', w') /\
                high_density_stack s' = high_density_stack s /\
                seen_place_ids s' = seen_place_ids s.
Proof.
  intros H. unfold crawl_tile, get_nearby_places. cbn. rewrite H. cbn.
  unfold check_and_save_chunk_size.
  destruct (chunk_flush_due s).
  - destruct (flush_chunk (city s) (chunk_buffer s) _) as [buf w1].
    eexists _, _. split; [reflexivity |]. by cbn.
  - eexists _, _. split; [reflexivity |]. by cbn.
Qed.


(** ** Checkpoints *)

Lemma save_path_not_load_path w city city' date_tag :
  save_path w city <> load_path city' date_tag.
Proof. unfold save_path, load_path. rewrite !string_app_cons. discriminate. Qed.

Lemma save_tmp_not_load_path w city city' date_tag :
  save_path w city +:+ ".tmp" <> load_path city' date_tag.
Proof. unfold save_path, load_path. rewrite !string_app_cons. discriminate. Qed.

Lemma load_after_save_comprehensive w city data city' date_tag :
  load_search_state (save_comprehensive_checkpoint w city data) city' date_tag
  = load_search_state w city' date_tag.
Proof.
  unfold load_search_state, save_comprehensive_checkpoint.
  pose proof (save_path_not_load_path w city city' date_tag).
  pose proof (save_tmp_not_load_path w city city' date_tag).
  destruct (ckpt_dir_ok w); cbn.
  - by rewrite lookup_insert_ne, lookup_delete_ne.
  - by rewrite lookup_delete_ne.
Qed.

(** C5, evaluated where it fails.  [save_search_state] writes under
    [data/checkpoints/checkpoint_<city>_<date>.ckpt], [load_search_state]
    reads [checkpoint_<city><date_tag>.ckpt]: whatever was saved, for
    whatever identity and date tag, loading sees exactly what it saw before
    the save.  From a clean directory the saved state is on disk and the
    load for the same identity returns nothing. *)
Theorem save_then_load_misses_checkpoint :
  (forall (w : World) (city city' date_tag : string)
          (initial_tiles stack : list Tile) (processed seen : gset string)
          (deep_count : Z),
     load_search_state
       (save_search_state w city initial_tiles stack processed seen deep_count)
       city' date_tag
     = load_search_state w city' date_tag) /\
  (exists snap,
     ckpt_files (save_search_state quiet_world "Dublin" [tile_a; tile_b]
                   [tile_a] {["k"]} {["p1"]} 3)
       !! "data/checkpoints/checkpoint_dublin_20250101.ckpt"
     = Some (Pickled snap) /\
     snap_high_density_stack snap = [tile_a] /\
     snap_deep_count snap = 3) /\
  load_search_state
    (save_search_state quiet_world "Dublin" [tile_a; tile_b] [tile_a]
       {["k"]} {["p1"]} 3) "Dublin" "" = None /\
  load_search_state
    (save_search_state quiet_world "Dublin" [tile_a; tile_b] [tile_a]
       {["k"]} {["p1"]} 3) "Dublin" "_20250101" = None.
Proof.
  split.
  { intros. unfold save_search_state. apply load_after_save_comprehensive. }
  split.
  { eexists. split.
    - unfold save_search_state, save_comprehensive_checkpoint; cbn.
      apply lookup_insert_eq.
    - split; reflexivity. }
  split.
  - unfold save_search_state. rewrite load_after_save_comprehensive. reflexivity.
  - unfold save_search_state. rewrite load_after_save_comprehensive. reflexivity.
Qed.

(** C9 (amended).  Every snapshot [save_search_state] writes carries the
    version ["1.0.1"]; [load_search_state] does not look at the version:
    it returns the stored dictionary as it is, whatever its version field,
    and returns nothing only for an absent or unreadable file. *)
Theorem checkpoint_version_unchecked (w : World) (city : string) :
  (forall (initial_tiles stack : list Tile) (processed seen : gset string)
          (deep_count : Z),
     ckpt_dir_ok w = true ->
     exists snap,
       ckpt_files (save_search_state w city initial_tiles stack processed seen
                     deep_count) !! save_path w city = Some (Pickled snap) /\
       snap_version snap = "1.0.1") /\
  (forall (date_tag : string) (snap : Snapshot),
     ckpt_files w !! load_path city date_tag = Some (Pickled snap) ->
     load_search_state w city date_tag = Some snap) /\
  (forall date_tag : string,
     load_search_state w city date_tag = None <->
     ckpt_files w !! load_path city date_tag = None \/
     ckpt_files w !! load_path city date_tag = Some Unreadable).
Proof.
  split.
  { intros initial_tiles stack processed seen deep_count Hok.
    unfold save_search_state, save_comprehensive_checkpoint. rewrite Hok. cbn.
    eexists. split; [apply lookup_insert_eq | reflexivity]. }
  split.
  { intros date_tag snap H. unfold load_search_state. by rewrite H. }
  intros date_tag. unfold load_search_state.
  destruct (ckpt_files w !! load_path city date_tag) as [[snap |] |];
    split; intros H; try done; try (by left); try (by right);
    destruct H; done.
Qed.

(** The theorem at work: the stored dictionary comes back whatever its
    version. *)
Lemma checkpoint_version_unchecked_witness :
  load_search_state world_with_foreign_checkpoint "Dublin" ""
  = Some foreign_snapshot.
Proof.
  apply (proj1 (proj2 (checkpoint_version_unchecked
                         world_with_foreign_checkpoint "Dublin"))).
  reflexivity.
Defined.

(** C9, as stated, fails: a checkpoint whose version is not the one the
    code writes is loaded like any other, neither rejected nor migrated. *)
Lemma load_accepts_foreign_version :
  snap_version foreign_snapshot <> checkpoint_version /\
  load_search_state world_with_foreign_checkpoint "Dublin" ""
  = Some foreign_snapshot.
Proof. split; [discriminate | reflexivity]. Qed.

(** ** The deep dive: the radius call *)



Lemma adjusted_radius_call_raises (lat size : Q) :
  adjusted_radius_call lat size = Raise TypeError.
Proof. reflexivity. Qed.




(** ** The deep dive: termination *)















(** The same run, computed: the frontier is exhausted after the tile, its
    4 children and its 16 grandchildren have been queried. *)
Example deep_dive_saturating_run :
  match deep_dive_loop unit_radius 86
          (with_high_density_stack [tile_a] dublin)
          (world_with (saturating_script 21)) with
  | Some (o, s', w') =>
      o = None /\ high_density_stack s' = [] /\ deep_count s' = 21 /\
      length (queries w') = 21%nat /\ size (processed s') = 21%nat /\
      size (seen_place_ids s') = 20%nat
  | None => False
  end.
Proof. vm_compute. repeat split. Qed.

(** ** The flush guards *)

(** The guard of the initial scan reads the running total [new_places]
    and the buffer length, nothing about the last addition. *)
Lemma chunk_flush_due_iff s :
  chunk_flush_due s = true
  <-> 0 < new_places s /\ chunk_size s <= Z.of_nat (length (chunk_buffer s)).
Proof.
  unfold chunk_flush_due. by rewrite andb_true_iff, Z.ltb_lt, Z.leb_le.
Qed.

(** The guard of the deep dive reads the buffer length only. *)
Lemma deep_flush_due_iff s :
  deep_flush_due s = true
  <-> chunk_size s <= Z.of_nat (length (chunk_buffer s)).
Proof. unfold deep_flush_due. by rewrite Z.leb_le. Qed.

(** Below the threshold neither guard can hold after an addition that
    contributed nothing: the buffer is as long as it was. *)
Lemma flush_guards_below_threshold s places :
  Z.of_nat (length (chunk_buffer s)) < chunk_size s ->
  retained (seen_place_ids s) places = [] ->
  chunk_flush_due (add_unique_row_to_final_list s places) = false /\
  deep_flush_due (foldl deep_add_unique s places) = false.
Proof.
  intros Hlt Hnil.
  destruct (add_unique_rows_spec places s) as (Hb & _).
  destruct (deep_add_unique_spec places s) as (Hb' & _).
  pose proof (foldl_deep_add_unique_frontier places s) as (Hcs & _).
  assert (Hcs' : chunk_size (add_unique_row_to_final_list s places)
                 = chunk_size s).
  { clear. revert s. induction places as [| p places IH]; intros s; [done |].
    rewrite add_unique_row_to_final_list_cons, IH.
    unfold add_unique_row. by destruct (decide _). }
  rewrite Hnil, app_nil_r in Hb, Hb'.
  split; apply not_true_iff_false.
  - rewrite chunk_flush_due_iff, Hb, Hcs'. lia.
  - rewrite deep_flush_due_iff, Hb', Hcs. lia.
Qed.

(** With a positive threshold, being below it is restored by every flush
    test of the deep dive, whatever was added. *)
Lemma deep_dive_after_query_below_threshold s w lat lng size places count pages :
  0 < chunk_size s ->
  let s' := (deep_dive_after_query s w lat lng size places count pages).1 in
  Z.of_nat (length (chunk_buffer s')) < chunk_size s'.
Proof.
  intros Hpos. cbn zeta. unfold deep_dive_after_query.
  set (s1 := with_deep_count _ _).
  pose proof (foldl_deep_add_unique_frontier places s1) as (Hcs & _).
  set (s2 := foldl deep_add_unique s1 places) in *.
  subst s1; cbn in Hcs.
  destruct (deep_flush_due s2) eqn:E.
  - destruct (chunk_buffer s2) as [| p b];
      cbn; destruct (subdivide_due _ _ _ _); cbn; lia.
  - apply not_true_iff_false in E. rewrite deep_flush_due_iff in E.
    destruct (subdivide_due _ _ _ _); cbn; lia.
Qed.


(* ===================================================================== *)
(** * Further properties of the code *)
(* ===================================================================== *)

(** ** The initial grid *)

Lemma Qle_bool_true (x y : Q) : Qle_bool x y = true <-> (x <= y)%Q.
Proof. apply Qle_bool_iff. Qed.






Lemma grid_row_stuck (fuel : nat) :
  forall lat lng lng_max step tiles,
    (step <= 0)%Q -> (lng <= lng_max)%Q ->
    grid_row fuel lat lng lng_max step tiles = None.
Proof.
  induction fuel as [| fuel IH]; intros lat lng lng_max step tiles Hs Hl;
    [reflexivity |].
  cbn [grid_row]. rewrite (proj2 (Qle_bool_true lng lng_max) Hl).
  apply IH; lra.
Qed.

(** X2. With a step that is zero or negative and a padded rectangle that
    is not inverted, [generate_initial_tiles] never returns: no number of
    loop tests is enough (the inner loop never leaves its first row). *)
Theorem generate_initial_tiles_stuck (center_lat center_lng : Q)
    (viewport : Viewport) (initial_step : Q) :
  (initial_step <= 0)%Q ->
  (sw_lat viewport - grid_padding <= ne_lat viewport + grid_padding)%Q ->
  (sw_lng viewport - grid_padding <= ne_lng viewport + grid_padding)%Q ->
  forall fuel,
    generate_initial_tiles fuel center_lat center_lng viewport initial_step
    = None.
Proof.
  intros Hs Hlat Hlng [| fuel]; [reflexivity |].
  unfold generate_initial_tiles. cbn [grid_rows].
  rewrite (proj2 (Qle_bool_true _ _) Hlat).
  by rewrite grid_row_stuck.
Qed.

(** The theorem at work: Dublin's viewport with a step of zero. *)
Lemma generate_initial_tiles_stuck_witness :
  generate_initial_tiles 1000 (5335 # 100) (-(626 # 100)) dublin_viewport 0
  = None.
Proof.
  apply generate_initial_tiles_stuck; apply Qle_bool_iff; reflexivity.
Defined.

(** ** Subdivision covers the parent *)



(** ** The search radius *)

Lemma Q2R_half (x : Q) : Q2R (x / 2) = (Q2R x / 2)%R.
Proof.
  rewrite Q2R_div by discriminate.
  replace (Q2R 2) with 2%R by (unfold Q2R; cbn [Qnum Qden inject_Z Qopp]; Lra.lra). reflexivity.
Qed.

Lemma cos_radians_range (lat : Q) :
  (-90 <= lat)%Q -> (lat <= 90)%Q ->
  (0 <= cos (radians (Q2R lat)) <= 1)%R.
Proof.
  intros H1 H2. apply Qle_Rle in H1, H2.
  replace (Q2R (-90)) with (-90)%R in H1 by (unfold Q2R; cbn [Qnum Qden inject_Z Qopp]; Lra.lra).
  replace (Q2R 90) with 90%R in H2 by (unfold Q2R; cbn [Qnum Qden inject_Z Qopp]; Lra.lra).
  pose proof PI_RGT_0 as Hpi. unfold radians. split.
  - apply cos_ge_0; Lra.nra.
  - apply COS_bound.
Qed.

(** X4. [calculate_search_radius], for a tile of non-negative side at a
    latitude between -90 and 90: the radius in degrees is the half
    diagonal of the square (its square is twice the square of the half
    side); the result lies between one half of and the whole of that half
    diagonal taken at 111111 m per degree; halving the side halves the
    radius, whatever longitude is passed; the radius is the same at the
    mirrored latitude. *)
Theorem search_radius_bounds (lat lng size : Q) :
  (0 <= size)%Q -> (-90 <= lat)%Q -> (lat <= 90)%Q ->
  let half_diagonal := (Q2R size / 2 * sqrt 2)%R in
  (half_diagonal * half_diagonal
   = 2 * (Q2R size / 2) * (Q2R size / 2))%R /\
  (half_diagonal * 111111 / 2 <= calculate_search_radius lat lng size)%R /\
  (calculate_search_radius lat lng size <= half_diagonal * 111111)%R /\
  (forall lng' : Q,
     calculate_search_radius lat lng' (size / 2)
     = (calculate_search_radius lat lng size / 2)%R) /\
  calculate_search_radius (- lat) lng size = calculate_search_radius lat lng size.
Proof.
  intros Hs H1 H2. cbn zeta.
  pose proof (cos_radians_range lat H1 H2) as [Hc0 Hc1].
  pose proof (sqrt_pos 2) as Hq.
  assert (Hsq : (sqrt 2 * sqrt 2 = 2)%R) by (apply sqrt_sqrt; Lra.lra).
  apply Qle_Rle in Hs. replace (Q2R 0) with 0%R in Hs by (unfold Q2R; cbn [Qnum Qden inject_Z Qopp]; Lra.lra).
  unfold calculate_search_radius.
  set (c := cos (radians (Q2R lat))) in *.
  assert (Hd : (0 <= Q2R size / 2 * sqrt 2)%R)
    by (apply Rmult_le_pos; Lra.lra).
  split; [Lra.nra |].
  set (d := (Q2R size / 2 * sqrt 2)%R) in *.
  assert (Hdc : (0 <= d * c)%R) by (apply Rmult_le_pos; Lra.lra).
  assert (Hdc1 : (d * c <= d)%R).
  { rewrite <- (Rmult_1_r d) at 2. apply Rmult_le_compat_l; Lra.lra. }
  split; [Lra.lra |]. split; [Lra.lra |]. split.
  - intros lng'. rewrite Q2R_half. fold c. subst d. Lra.lra.
  - rewrite Q2R_opp. unfold radians.
    replace (- Q2R lat * (PI / 180))%R with (- (Q2R lat * (PI / 180)))%R by Lra.lra.
    by rewrite cos_neg.
Qed.

(** The theorem at work: the tile of the class docstring. *)
Lemma search_radius_bounds_witness :
  (calculate_search_radius (5335 # 100) (-(626 # 100)) (1 # 100)
   <= Q2R (1 # 100) / 2 * sqrt 2 * 111111)%R.
Proof.
  apply (search_radius_bounds (5335 # 100) (-(626 # 100)) (1 # 100));
    apply Qle_bool_iff; reflexivity.
Defined.

(** ** The result file and the checkpoint file *)

(** What a flush does to the buffer and to the city's file. *)
Lemma flush_chunk_rows (city : string) (buffer : list Place) (w : World) :
  (flush_chunk city buffer w).1 = [] /\
  csv_rows (flush_chunk city buffer w).2 city = csv_rows w city ++ buffer.
Proof.
  destruct buffer as [| p b]; cbn; [by rewrite app_nil_r |].
  split; [done |]. unfold csv_rows, csv_name. cbn. by rewrite lookup_insert_eq.
Qed.

(** X5. [flush_chunk] is all or nothing and appends: on an empty buffer
    the world is untouched (no file appears); otherwise the buffer comes
    back empty and the city's file holds its former rows followed by the
    buffer; a second flush appends after the first; no other result file,
    no checkpoint and no pending response is touched. *)
Theorem flush_chunk_appends (city : string) (buffer : list Place) (w : World) :
  flush_chunk city [] w = ([], w) /\
  (flush_chunk city buffer w).1 = [] /\
  csv_rows (flush_chunk city buffer w).2 city = csv_rows w city ++ buffer /\
  (forall buffer2 : list Place,
     csv_rows (flush_chunk city buffer2 (flush_chunk city buffer w).2).2 city
     = csv_rows w city ++ buffer ++ buffer2) /\
  (forall f : string, f <> csv_name city ->
     csv_files (flush_chunk city buffer w).2 !! f = csv_files w !! f) /\
  ckpt_files (flush_chunk city buffer w).2 = ckpt_files w /\
  queries (flush_chunk city buffer w).2 = queries w /\
  http_script (flush_chunk city buffer w).2 = http_script w.
Proof.
  assert (Hrows : forall b w0,
    csv_rows (flush_chunk city b w0).2 city = csv_rows w0 city ++ b)
    by (intros b w0; apply flush_chunk_rows).
  split; [reflexivity |].
  split; [by destruct buffer |].
  split; [apply Hrows |].
  split; [intros buffer2; by rewrite !Hrows, app_assoc |].
  split.
  { intros f Hf. destruct buffer; cbn; [done |].
    unfold csv_name in Hf. by rewrite lookup_insert_ne. }
  by destruct buffer.
Qed.

(** The theorem at work: a file other than the city's own is left alone. *)
Lemma flush_chunk_appends_witness :
  csv_files (flush_chunk "Dublin" [place_a] quiet_world).2
    !! "cork_restaurants.csv" = None.
Proof.
  destruct (flush_chunk_appends "Dublin" [place_a] quiet_world)
    as (_ & _ & _ & _ & H & _).
  rewrite H; [reflexivity | discriminate].
Defined.

Lemma string_app_tmp_ne (s : string) : s <> s +:+ ".tmp".
Proof.
  induction s as [| c s IH]; [discriminate |].
  rewrite string_app_cons. intros [= E]. by apply IH.
Qed.

(** X6. [save_comprehensive_checkpoint] never leaves its temporary file
    behind and never raises.  When the checkpoint directory can be
    written, the checkpoint path holds the new dictionary, and a later
    save replaces it; when it cannot, the former checkpoint is left as it
    was.  No other file is touched. *)
Theorem save_checkpoint_atomic (w : World) (city : string) (data : Snapshot) :
  let w' := save_comprehensive_checkpoint w city data in
  ckpt_files w' !! (save_path w city +:+ ".tmp") = None /\
  (ckpt_dir_ok w = true ->
     ckpt_files w' !! save_path w city = Some (Pickled data)) /\
  (ckpt_dir_ok w = true ->
     forall data2 : Snapshot,
       ckpt_files (save_comprehensive_checkpoint w' city data2)
         !! save_path w city = Some (Pickled data2)) /\
  (ckpt_dir_ok w = false ->
     ckpt_files w' !! save_path w city = ckpt_files w !! save_path w city) /\
  (forall p : string,
     p <> save_path w city -> p <> save_path w city +:+ ".tmp" ->
     ckpt_files w' !! p = ckpt_files w !! p) /\
  csv_files w' = csv_files w /\ queries w' = queries w /\
  http_script w' = http_script w /\ ts w' = ts w /\
  ckpt_dir_ok w' = ckpt_dir_ok w.
Proof.
  cbn zeta. unfold save_comprehensive_checkpoint.
  pose proof (string_app_tmp_ne (save_path w city)) as Hne.
  destruct (ckpt_dir_ok w) eqn:Hok; cbn.
  - split; [by rewrite lookup_insert_ne, lookup_delete_eq |].
    split; [intros _; apply lookup_insert_eq |].
    split.
    { intros _ data2. unfold save_path at 1 2. cbn. fold (save_path w city).
      rewrite Hok. cbn. apply lookup_insert_eq. }
    split; [done |].
    split; [| done].
    intros p H1 H2. by rewrite lookup_insert_ne, lookup_delete_ne.
  - split; [apply lookup_delete_eq |].
    split; [done |]. split; [done |].
    split; [intros _; by rewrite lookup_delete_ne |].
    split; [| done].
    intros p H1 H2. by rewrite lookup_delete_ne.
Qed.

(** The theorem at work: saving into a writable, empty directory. *)
Lemma save_checkpoint_atomic_witness :
  ckpt_files (save_comprehensive_checkpoint quiet_world "Dublin" foreign_snapshot)
    !! save_path quiet_world "Dublin" = Some (Pickled foreign_snapshot).
Proof.
  pose proof (save_checkpoint_atomic quiet_world "Dublin" foreign_snapshot)
    as (_ & H & _).
  exact (H eq_refl).
Defined.

(** ** The query client *)

Lemma fetch_pages_spec (n : nat) :
  forall script places pc r rest,
    fetch_pages n script places pc = (r, rest) ->
    exists taken,
      script = taken ++ rest /\ (length taken <= n)%nat /\
      match r with
      | Ok (pl, pc') =>
          pl = places ++ concat (ok_results <$> taken) /\
          pc' = pc + Z.of_nat (length (filter (fun o => is_ok_page o = true) taken))
      | Raise _ => True
      end.
Proof.
  induction n as [| n IH]; intros script places pc r rest E; cbn in E.
  - injection E as <- <-. exists []. cbn. rewrite app_nil_r.
    repeat split; [lia | lia].
  - destruct script as [| o script].
    { injection E as <- <-. exists []. repeat split; cbn; lia. }
    destruct o as [| status results token].
    { injection E as <- <-. exists [HttpFailure]. repeat split; cbn; lia. }
    destruct (String.eqb status "OK") eqn:Eok; cbn in E.
    + destruct (truthy token).
      * apply IH in E as (taken & -> & Hlen & Hr).
        exists (HttpJson status results token :: taken).
        split; [done |]. split; [cbn; lia |].
        destruct r as [[pl pc'] | e]; [| done].
        destruct Hr as [-> ->]. cbn [fmap list_fmap concat ok_results].
        rewrite Eok, <- app_assoc. split; [done |].
        rewrite filter_cons_True by (cbn; exact Eok). cbn [length]. lia.
      * injection E as <- <-. exists [HttpJson status results token].
        split; [done |]. split; [cbn; lia |].
        cbn [fmap list_fmap concat ok_results]. rewrite Eok, app_nil_r.
        split; [done |].
        rewrite filter_cons_True by (cbn; exact Eok). cbn. lia.
    + destruct (String.eqb status "OVER_QUERY_LIMIT").
      * apply IH in E as (taken & -> & Hlen & Hr).
        exists (HttpJson status results token :: taken).
        split; [done |]. split; [cbn; lia |].
        destruct r as [[pl pc'] | e]; [| done].
        destruct Hr as [-> ->]. cbn [fmap list_fmap concat ok_results].
        rewrite Eok. cbn [app]. split; [done |].
        rewrite filter_cons_False by (cbn; rewrite Eok; discriminate). done.
      * injection E as <- <-. exists [HttpJson status results token].
        split; [done |]. split; [cbn; lia |].
        cbn [fmap list_fmap concat ok_results]. rewrite Eok. cbn [app].
        rewrite app_nil_r. split; [done |].
        rewrite filter_cons_False by (cbn; rewrite Eok; discriminate).
        cbn. lia.
Qed.

Lemma ok_results_length_cap (cap : nat) (taken : list HttpOutcome) :
  Forall (fun o => (length (ok_results o) <= cap)%nat) taken ->
  (length (concat (ok_results <$> taken))
   <= cap * length (filter (fun o => is_ok_page o = true) taken))%nat.
Proof.
  induction 1 as [| o taken Ho _ IH]; [cbn; lia |].
  cbn [fmap list_fmap concat]. rewrite length_app.
  destruct (is_ok_page o) eqn:E.
  - rewrite filter_cons_True by exact E. cbn [length]. lia.
  - rewrite filter_cons_False by (rewrite E; discriminate).
    assert (ok_results o = []) as ->; [| cbn; lia].
    destruct o as [| status results token]; [done |].
    cbn in E |- *. by rewrite E.
Qed.

Lemma get_nearby_places_world w lat lng radius type_ :
  let w' := (get_nearby_places w lat lng radius type_).2 in
  queries w' = queries w ++ [mkQuery lat lng radius type_] /\
  csv_files w' = csv_files w /\ ckpt_files w' = ckpt_files w /\
  ckpt_dir_ok w' = ckpt_dir_ok w /\ ts w' = ts w /\ now w' = now w.
Proof.
  cbn zeta. unfold get_nearby_places.
  destruct (fetch_pages _ _ _ _) as [[[pl pc] | e] rest]; by cbn.
Qed.

(** The responses one call consumes, and the value it returns. *)
Lemma get_nearby_places_taken (w : World) (lat lng : Q) (radius : R)
    (type_ : string) :
  let r := get_nearby_places w lat lng radius type_ in
  exists taken : list HttpOutcome,
    http_script w = taken ++ http_script r.2 /\
    (length taken <= 3)%nat /\
    (r.1 = Tuple2 [] 0 \/
     r.1 = Tuple3 (concat (ok_results <$> taken))
             (Z.of_nat (length (concat (ok_results <$> taken))))
             (Z.of_nat (length (filter (fun o => is_ok_page o = true) taken)))).
Proof.
  cbn zeta. unfold get_nearby_places. cbn [http_script with_queries].
  destruct (fetch_pages MAX_PAGES (http_script w) [] 0) as [r rest] eqn:E.
  apply fetch_pages_spec in E as (taken & Hs & Hlen & Hr).
  exists taken. destruct r as [[pl pc] | e]; cbn.
  - destruct Hr as [-> ->]. split; [done |]. split; [exact Hlen |]. by right.
  - split; [done |]. split; [exact Hlen |]. by left.
Qed.

(** X7. Every call of [get_nearby_places] logs exactly one query, touches
    no file, and uses up at most three of the pending responses.  It
    returns the empty pair, or a triple whose records are those of the
    pages delivered, in order, whose count is their number and whose page
    count is the number of pages delivered: between 0 and 3, and, when no
    page carries more than [cap] records, at least [count / cap]. *)
Theorem get_nearby_places_result (w : World) (lat lng : Q) (radius : R)
    (type_ : string) :
  let r := get_nearby_places w lat lng radius type_ in
  queries r.2 = queries w ++ [mkQuery lat lng radius type_] /\
  csv_files r.2 = csv_files w /\ ckpt_files r.2 = ckpt_files w /\
  exists taken : list HttpOutcome,
    http_script w = taken ++ http_script r.2 /\
    (length taken <= 3)%nat /\
    (r.1 = Tuple2 [] 0 \/
     r.1 = Tuple3 (concat (ok_results <$> taken))
             (Z.of_nat (length (concat (ok_results <$> taken))))
             (Z.of_nat (length (filter (fun o => is_ok_page o = true) taken)))) /\
    (forall places count pages,
       r.1 = Tuple3 places count pages ->
       count = Z.of_nat (length places) /\ 0 <= pages <= 3 /\
       forall cap : nat,
         Forall (fun o => (length (ok_results o) <= cap)%nat) taken ->
         count <= Z.of_nat cap * pages).
Proof.
  cbn zeta.
  destruct (get_nearby_places_world w lat lng radius type_)
    as (Hq & Hcsv & Hck & _).
  destruct (get_nearby_places_taken w lat lng radius type_)
    as (taken & Hs & Hlen & Hshape).
  split; [exact Hq |]. split; [exact Hcsv |]. split; [exact Hck |].
  exists taken. split; [exact Hs |]. split; [exact Hlen |].
  split; [exact Hshape |].
  intros places count pages Hret. rewrite Hret in Hshape.
  destruct Hshape as [[=] | [= -> -> ->]].
  pose proof (length_filter (fun o => is_ok_page o = true) taken) as Hf.
  split; [done |]. split; [lia |].
  intros cap Hcap. pose proof (ok_results_length_cap cap taken Hcap). nia.
Qed.

(** The theorem at work: one full page and no further token. *)
Lemma get_nearby_places_result_witness :
  Z.of_nat (length (sample_places 20)) <= Z.of_nat 20 * 1.
Proof.
  destruct (get_nearby_places_result
              (world_with [HttpJson "OK" (sample_places 20) None])
              (5335 # 100) (-(626 # 100)) 1000 "restaurant")
    as (_ & _ & _ & taken & Hs & _ & _ & Hcap).
  assert (Ht : taken = [HttpJson "OK" (sample_places 20) None]).
  { cbn in Hs. by rewrite app_nil_r in Hs. }
  subst taken.
  destruct (Hcap (sample_places 20) 20 1 eq_refl) as (_ & _ & H).
  change (Z.of_nat (length (sample_places 20))) with 20.
  apply (H 20%nat). repeat constructor.
Defined.

(** X8. A result can pass the saturation test only if the first three
    responses were three delivered pages: a quota reply, any other
    refusal or a missing page token among them rules it out.  When no
    page carries more than 20 records, each of the three carried
    exactly 20. *)
Theorem saturated_needs_three_pages (w : World) (lat lng : Q) (radius : R)
    (type_ : string) (places : list Place) (count pages : Z) :
  (get_nearby_places w lat lng radius type_).1 = Tuple3 places count pages ->
  saturated pages count = true ->
  exists o1 o2 o3,
    http_script w
    = o1 :: o2 :: o3 :: http_script (get_nearby_places w lat lng radius type_).2 /\
    is_ok_page o1 = true /\ is_ok_page o2 = true /\ is_ok_page o3 = true /\
    places = ok_results o1 ++ ok_results o2 ++ ok_results o3 /\
    ((length (ok_results o1) <= 20)%nat ->
     (length (ok_results o2) <= 20)%nat ->
     (length (ok_results o3) <= 20)%nat ->
     length (ok_results o1) = 20%nat /\ length (ok_results o2) = 20%nat /\
     length (ok_results o3) = 20%nat).
Proof.
  intros Hret Hsat. apply saturated_iff in Hsat as [-> ->].
  destruct (get_nearby_places_taken w lat lng radius type_)
    as (taken & Hs & Hlen & Hshape).
  rewrite Hret in Hshape. destruct Hshape as [[=] | [= Hp Hc Hn]].
  pose proof (length_filter (fun o => is_ok_page o = true) taken) as Hf.
  assert (Hl3 : length taken = 3%nat) by lia.
  destruct taken as [| o1 [| o2 [| o3 [| o4 taken]]]]; try discriminate.
  assert (Hall : is_ok_page o1 = true /\ is_ok_page o2 = true
                 /\ is_ok_page o3 = true).
  { clear - Hn. destruct (is_ok_page o1) eqn:E1, (is_ok_page o2) eqn:E2,
      (is_ok_page o3) eqn:E3; try done; exfalso;
      rewrite ?filter_cons_True, ?filter_cons_False in Hn
        by (rewrite ?E1, ?E2, ?E3; done);
      repeat (first [rewrite filter_cons_True in Hn by (rewrite ?E1, ?E2, ?E3; done)
                    | rewrite filter_cons_False in Hn by (rewrite ?E1, ?E2, ?E3; done)]);
      cbn in Hn; lia. }
  destruct Hall as (E1 & E2 & E3).
  exists o1, o2, o3. split; [exact Hs |]. repeat split; try done.
  - subst places. cbn. by rewrite app_nil_r.
  - subst places. cbn in Hc. rewrite app_nil_r, !length_app in Hc. lia.
  - subst places. cbn in Hc. rewrite app_nil_r, !length_app in Hc. lia.
  - subst places. cbn in Hc. rewrite app_nil_r, !length_app in Hc. lia.
Qed.

(** The theorem at work: three full pages of twenty records. *)
Lemma saturated_needs_three_pages_witness :
  exists o1 o2 o3,
    saturating_script 1 = [o1; o2; o3] /\
    length (ok_results o1) = 20%nat /\ length (ok_results o2) = 20%nat /\
    length (ok_results o3) = 20%nat.
Proof.
  destruct (saturated_needs_three_pages (world_with (saturating_script 1))
              (5335 # 100) (-(626 # 100)) 1000 "restaurant"
              (sample_places 20 ++ sample_places 20 ++ sample_places 20) 60 3
              eq_refl eq_refl)
    as (o1 & o2 & o3 & Hs & _ & _ & _ & _ & H).
  cbn in Hs. injection Hs as <- <- <-.
  exists (HttpJson "OK" (sample_places 20) (Some "page2")),
         (HttpJson "OK" (sample_places 20) (Some "page3")),
         (HttpJson "OK" (sample_places 20) None).
  split; [reflexivity |]. apply H; cbn; lia.
Defined.

(** ** Results are never lost and never duplicated *)
















Section DeepDiveResults.

Variable radius_call : Q -> Q -> result R.




End DeepDiveResults.



(** ** The deep-dive budget *)







(** ** Tiles already processed *)




(** ** The trace of the initial scan *)








(** ** The entry points *)








(** ** The checkpoints of the deep dive *)










